(** * API-key authentication gate (HbarSuite api-key)

    A shallow embedding of the authentication pipeline of the package:

    - [ApiKeyService.validateApiKey] (api-key.service.ts), the validator;
    - the verify callback that [ApiKeyStrategy] hands to
      [HeaderAPIKeyStrategy] (strategies/api-key.strategy.ts), together with
      the configuration [{ header: 'Authorization', prefix: 'Bearer ' }];
    - the surrounding gate ([authenticate]): header extraction, dispatch on
      the callback's [done] signal and the attachment of the user to the
      request, which the package inherits from its passport base classes.

    Asynchronous code is written in a small promise monad over a [World]
    that holds the user collection and the log of the queries sent to it. *)

From Stdlib Require Import String List Bool Ascii Arith Lia.
Import ListNotations.
Local Open Scope list_scope.
Local Open Scope string_scope.

(** ** JavaScript values the code distinguishes *)

Module Js.

(** A value that is [undefined], [null] or an object. *)
Inductive value (A : Type) : Type :=
| undefined : value A
| null : value A
| object (a : A) : value A.

Arguments undefined {A}.
Arguments null {A}.
Arguments object {A} a.

(** Truthiness: [undefined] and [null] are falsy, every object is truthy. *)
Definition truthy {A : Type} (v : value A) : bool :=
  match v with
  | object _ => true
  | undefined | null => false
  end.

(** Optional chaining [v?.f()]: [undefined] when [v] is nullish. *)
Definition optional_chain {A B : Type} (f : A -> B) (v : value A) : value B :=
  match v with
  | object a => object (f a)
  | undefined | null => undefined
  end.

End Js.

(** ** Data model *)

Definition ObjectId := string.

(** A tag of a user record: [{ key, value }]. *)
Record Tag : Type := { key : string; value : string }.

(** The plain user object. Only [_id] and [tags] are read by this package;
    [rest] stands for every other field of the record. *)
Record User : Type := {
  _id : ObjectId;
  tags : list Tag;
  rest : list (string * string)
}.

(** A hydrated document of the user collection, seen through [toJSON]. *)
Record UserDocument : Type := { toJSON : User }.

(** Errors that travel through [reject] and [done(error)]. *)
Inductive Error : Type :=
| TypeError (message : string)
| StoreError (message : string).

(** The filter object built by [validateApiKey]:
    [{ _id: ..., 'tags.key': ..., 'tags.value': ... }]. *)
Module Filter.
Record t : Type := {
  _id : ObjectId;
  tags_key : string;
  tags_value : string
}.
End Filter.

(** The external record store: the user collection, and whether a call to it
    fails (connection or transport failure). *)
Record Store : Type := {
  documents : list UserDocument;
  outage : option Error
}.

(** The store together with the filters sent to it so far, oldest first. *)
Record World : Type := {
  store : Store;
  queries : list Filter.t
}.

(** ** The query semantics of the store

    [userModelService.findOne] belongs to the users package; the filter it
    receives is a MongoDB query. Its three entries are three independent
    conditions, all of which must hold. [tags] is an array of sub-documents,
    so a dotted path ['tags.key': k] holds when SOME element of the array
    has [key] equal to [k], and ['tags.value': v] when SOME element has
    [value] equal to [v]; nothing in the filter (no [$elemMatch]) ties the
    two to the same element. *)

Definition path_tags_key (k : string) (u : User) : bool :=
  existsb (fun t => String.eqb (key t) k) (tags u).

Definition path_tags_value (v : string) (u : User) : bool :=
  existsb (fun t => String.eqb (value t) v) (tags u).

Definition matches (f : Filter.t) (d : UserDocument) : bool :=
  String.eqb (_id (toJSON d)) (Filter._id f)
  && path_tags_key (Filter.tags_key f) (toJSON d)
  && path_tags_value (Filter.tags_value f) (toJSON d).

(** What the claims call a matching tag: ONE tag with the given name and
    the given value. *)
Definition tag_is (k v : string) (t : Tag) : bool :=
  String.eqb (key t) k && String.eqb (value t) v.

Definition has_tag (k v : string) (u : User) : bool :=
  existsb (tag_is k v) (tags u).

(** The identity exists in the collection. *)
Definition known (id : ObjectId) (s : Store) : bool :=
  existsb (fun d => String.eqb (_id (toJSON d)) id) (documents s).

(** The records of the collection that carry a given [_id]. *)
Definition records_of (id : ObjectId) (s : Store) : list UserDocument :=
  filter (fun d => String.eqb (_id (toJSON d)) id) (documents s).

(** No two records of the collection share an [_id]. *)
Definition unique_ids (s : Store) : Prop :=
  NoDup (map (fun d => _id (toJSON d)) (documents s)).

(** ** Promises *)

Inductive Settled (A : Type) : Type :=
| Fulfilled (a : A)
| Rejected (e : Error).

Arguments Fulfilled {A} a.
Arguments Rejected {A} e.

Definition Promise (A : Type) : Type := World -> Settled A * World.

Definition resolve {A : Type} (a : A) : Promise A := fun w => (Fulfilled a, w).

Definition reject {A : Type} (e : Error) : Promise A := fun w => (Rejected e, w).

(** [await]: run [c], continue with [k] on its value, stop on a rejection. *)
Definition await {A B : Type} (c : Promise A) (k : A -> Promise B) : Promise B :=
  fun w =>
    match c w with
    | (Fulfilled a, w') => k a w'
    | (Rejected e, w') => (Rejected e, w')
    end.

(** [try { c } catch (error) { h error }]. *)
Definition try_catch {A : Type} (c : Promise A) (h : Error -> Promise A) : Promise A :=
  fun w =>
    match c w with
    | (Fulfilled a, w') => (Fulfilled a, w')
    | (Rejected e, w') => h e w'
    end.

Notation "x <- c ;; k" := (await c (fun x => k))
  (at level 61, c at next level, right associativity).

(** [userModelService.findOne(filter)]: the call is logged; it throws when
    the store is out, and otherwise returns the first document that matches
    the filter, or [null]. *)
Definition findOne (f : Filter.t) : Promise (Js.value UserDocument) :=
  fun w =>
    let w' := {| store := store w; queries := (queries w ++ [f])%list |} in
    match outage (store w) with
    | Some e => (Rejected e, w')
    | None =>
        match find (matches f) (documents (store w)) with
        | Some d => (Fulfilled (Js.object d), w')
        | None => (Fulfilled Js.null, w')
        end
    end.

(** Reading [user._id]: a [TypeError] when [user] is [undefined]
    ([request.user as UserDocument] is an unchecked cast). *)
Definition read_id (user : option User) : Promise ObjectId :=
  match user with
  | Some u => resolve (_id u)
  | None => reject (TypeError "Cannot read properties of undefined (reading '_id')")
  end.

(** ** ApiKeyService.validateApiKey *)

Definition validateApiKey (apiKey : string) (user : option User)
  : Promise (Js.value User) :=
  try_catch
    (id <- read_id user ;;
     userDocument <- findOne {| Filter._id := id;
                                Filter.tags_key := "api-key";
                                Filter.tags_value := apiKey |} ;;
     resolve (Js.optional_chain toJSON userDocument))
    (fun error => reject error).

(** ** ApiKeyStrategy: the verify callback *)

(** The three ways the callback calls [done]. *)
Inductive Verified : Type :=
| done_error (error : Error)          (* done(error) *)
| done_false                          (* done(null, false) *)
| done_user (user : Js.value User).   (* done(null, user) *)

(** The per-request carrier. [authorization] is the value of the configured
    header when the request has it, [user] the identity claimed by an
    earlier stage, [others] every other field of the request. *)
Record Request : Type := {
  authorization : option string;
  user : option User;
  others : list (string * string)
}.

(** The branch after [await validateApiKey(...)]: [if (!user)]. *)
Definition on_validated (validated : Js.value User) : Verified :=
  if negb (Js.truthy validated) then done_false else done_user validated.

(** [async (apiKey, done, request) => { try { ... } catch (error) { ... } }]. *)
Definition verify (apiKey : string) (request : Request) (w : World)
  : Verified * World :=
  match validateApiKey apiKey (user request) w with
  | (Fulfilled validated, w') => (on_validated validated, w')
  | (Rejected error, w') => (done_error error, w')
  end.

(** ** The gate *)

(** The configuration passed to [super]. *)
Definition header : string := "Authorization".
Definition prefix : string := "Bearer ".

(** Modelled from the spec: the credential extractor, which lives in the
    header-api-key base strategy and not in this package. Section 4.1:
    absence when the header is absent or does not start with the prefix,
    otherwise the remainder after the prefix, unmodified. *)
Definition extract (headerValue : option string) : option string :=
  match headerValue with
  | None => None
  | Some v =>
      if String.prefix prefix v
      then Some (substring (String.length prefix)
                           (String.length v - String.length prefix) v)
      else None
  end.

Inductive Reason : Type :=
| missing_credential
| identity_not_found
| credential_mismatch
| upstream_error.

Inductive AuthenticationOutcome : Type :=
| Allowed (identity : User)
| Denied (reason : Reason).

(** Modelled from the spec: on success the resolved identity is attached to
    the request (done by the passport guard base class, see the guard's doc
    comment, item 3); no other field is written. *)
Definition attach (identity : User) (request : Request) : Request :=
  {| authorization := authorization request;
     user := Some identity;
     others := others request |}.

(** What one run of the gate yields: the outcome, the error handed to the
    host's error path (if any), and the request context afterwards. *)
Record Result : Type := {
  outcome : AuthenticationOutcome;
  reported : option Error;
  context : Request
}.

(** A denial that reports nothing, a denial that hands an error to the
    host, and an allowance that attaches the identity. *)
Definition denied (reason : Reason) (request : Request) : Result :=
  {| outcome := Denied reason; reported := None; context := request |}.

Definition failed (error : Error) (request : Request) : Result :=
  {| outcome := Denied upstream_error; reported := Some error; context := request |}.

Definition allowed (identity : User) (request : Request) : Result :=
  {| outcome := Allowed identity; reported := None; context := attach identity request |}.

(** Modelled from the spec: one run of the gate around the verify callback.
    The extraction and the dispatch on the callback's signal belong to the
    base strategy, which is not in this package; they follow the spec's
    section 4.3 and the comments on the three [done] calls of the callback:
    [done(null, user)] with a user allows, [done(null, false)] (or any falsy
    user) is a credential mismatch, [done(error)] is an upstream error that
    is handed on to the host. *)
Definition authenticate (request : Request) (w : World) : Result * World :=
  match extract (authorization request) with
  | None => (denied missing_credential request, w)
  | Some apiKey =>
      match verify apiKey request w with
      | (done_user (Js.object u), w') => (allowed u request, w')
      | (done_user _, w') | (done_false, w') => (denied credential_mismatch request, w')
      | (done_error e, w') => (failed e request, w')
      end
  end.

(** The filter [validateApiKey] builds for a credential and an identity. *)
Definition api_key_filter (apiKey : string) (id : ObjectId) : Filter.t :=
  {| Filter._id := id; Filter.tags_key := "api-key"; Filter.tags_value := apiKey |}.

(** ** Sample data *)

Module Sample.

Definition tag (k v : string) : Tag := {| key := k; value := v |}.

(** U1 holds the key abc123. *)
Definition U1 : User :=
  {| _id := "U1"; tags := [tag "api-key" "abc123"]; rest := [("name", "alice")] |}.

(** U2 holds the key secret, and an unrelated tag whose value is abc123. *)
Definition U2 : User :=
  {| _id := "U2";
     tags := [tag "api-key" "secret"; tag "label" "abc123"];
     rest := [("name", "bob")] |}.

(** U3 holds an api-key tag with the empty value. *)
Definition U3 : User :=
  {| _id := "U3"; tags := [tag "api-key" ""]; rest := [] |}.

(** U1 as claimed by a session that carries other profile data. *)
Definition U1_session : User :=
  {| _id := "U1"; tags := []; rest := [("session", "s-42")] |}.

Definition doc (u : User) : UserDocument := {| toJSON := u |}.

Definition users : Store :=
  {| documents := [doc U1; doc U2; doc U3]; outage := None |}.

Definition empty : Store := {| documents := []; outage := None |}.

Definition down : Store :=
  {| documents := [doc U1; doc U2; doc U3];
     outage := Some (StoreError "connection refused") |}.

Definition world (s : Store) : World := {| store := s; queries := [] |}.

Definition request (h : option string) (u : option User) : Request :=
  {| authorization := h; user := u; others := [("url", "/api/protected")] |}.

End Sample.

(** The concrete scenarios of the spec's section 8. *)

Example scenario_1_allowed :
  outcome (fst (authenticate (Sample.request (Some "Bearer abc123") (Some Sample.U1))
                             (Sample.world Sample.users)))
  = Allowed Sample.U1.
Proof. reflexivity. Qed.

Example scenario_2_wrong_key :
  outcome (fst (authenticate (Sample.request (Some "Bearer wrong") (Some Sample.U1))
                             (Sample.world Sample.users)))
  = Denied credential_mismatch.
Proof. reflexivity. Qed.

Example scenario_3_no_header :
  outcome (fst (authenticate (Sample.request None (Some Sample.U1))
                             (Sample.world Sample.users)))
  = Denied missing_credential.
Proof. reflexivity. Qed.

Example scenario_4_wrong_prefix :
  outcome (fst (authenticate (Sample.request (Some "Token abc123") (Some Sample.U1))
                             (Sample.world Sample.users)))
  = Denied missing_credential.
Proof. reflexivity. Qed.

Example scenario_5_store_down :
  let r := fst (authenticate (Sample.request (Some "Bearer abc123") (Some Sample.U1))
                             (Sample.world Sample.down)) in
  outcome r = Denied upstream_error
  /\ reported r = Some (StoreError "connection refused").
Proof. split; reflexivity. Qed.

Example scenario_6_empty_credential :
  outcome (fst (authenticate (Sample.request (Some "Bearer ") (Some Sample.U1))
                             (Sample.world Sample.users)))
  = Denied credential_mismatch.
Proof. reflexivity. Qed.

(** The validator alone: a wrong key resolves to [undefined] after one
    query; a store that is down rejects. *)

Example validate_wrong_key :
  validateApiKey "wrong" (Some Sample.U1) (Sample.world Sample.users)
  = (Fulfilled Js.undefined,
     {| store := Sample.users; queries := [api_key_filter "wrong" "U1"] |}).
Proof. reflexivity. Qed.

Example validate_store_down :
  validateApiKey "abc123" (Some Sample.U1) (Sample.world Sample.down)
  = (Rejected (StoreError "connection refused"),
     {| store := Sample.down; queries := [api_key_filter "abc123" "U1"] |}).
Proof. reflexivity. Qed.

(** * Properties *)

(** ** Strings and prefixes *)

Section Prefixes.

Lemma substring_whole (s : string) : substring 0 (String.length s) s = s.
Proof.
  induction s as [|a s IH]; simpl.
  - reflexivity.
  - now rewrite IH.
Qed.

Lemma prefix_append (p r : string) : String.prefix p (p ++ r) = true.
Proof.
  induction p as [|a p IH]; simpl.
  - now destruct r.
  - destruct (ascii_dec a a) as [_|Hne]; [exact IH | now elim Hne].
Qed.

Lemma substring_after_prefix (p r : string) :
  substring (String.length p) (String.length (p ++ r) - String.length p) (p ++ r) = r.
Proof.
  induction p as [|a p IH]; simpl.
  - rewrite Nat.sub_0_r. apply substring_whole.
  - exact IH.
Qed.

Lemma prefix_split (p v : string) :
  String.prefix p v = true -> exists r, v = p ++ r.
Proof.
  revert v. induction p as [|a p IH]; intros v H.
  - exists v. reflexivity.
  - destruct v as [|b v]; simpl in H; [discriminate|].
    destruct (ascii_dec a b) as [->|_]; [|discriminate].
    destruct (IH v H) as [r ->]. exists r. reflexivity.
Qed.

End Prefixes.

(** ** The extractor, characterised *)

Lemma extract_prefixed (r : string) : extract (Some (prefix ++ r)) = Some r.
Proof.
  unfold extract. rewrite prefix_append, substring_after_prefix. reflexivity.
Qed.

Lemma extract_some_inv (v k : string) :
  extract (Some v) = Some k -> v = prefix ++ k.
Proof.
  unfold extract. destruct (String.prefix prefix v) eqn:E; [|discriminate].
  destruct (prefix_split _ _ E) as [r ->].
  rewrite substring_after_prefix. now intros [= ->].
Qed.

Lemma extract_unprefixed (v : string) :
  (forall r, v <> prefix ++ r) -> extract (Some v) = None.
Proof.
  intros H. destruct (extract (Some v)) as [k|] eqn:E; [|reflexivity].
  elim (H k). now apply extract_some_inv.
Qed.

(** ** The validator, step by step *)

(** With a claimed identity, [validateApiKey] is one [findOne] with the
    filter built from the identity's [_id] and the credential, followed by
    the optional-chained [toJSON]. *)
Lemma validateApiKey_claimed (apiKey : string) (u : User) (w : World) :
  validateApiKey apiKey (Some u) w =
  match findOne (api_key_filter apiKey (_id u)) w with
  | (Fulfilled d, w') => (Fulfilled (Js.optional_chain toJSON d), w')
  | (Rejected e, w') => (Rejected e, w')
  end.
Proof.
  unfold validateApiKey, try_catch, await, read_id, resolve, reject, api_key_filter.
  destruct (findOne _ w) as [[d|e] w']; reflexivity.
Qed.

(** Without one, reading [_id] throws before any call to the store. *)
Lemma validateApiKey_unclaimed (apiKey : string) (w : World) :
  validateApiKey apiKey None w =
  (Rejected (TypeError "Cannot read properties of undefined (reading '_id')"), w).
Proof. reflexivity. Qed.

(** A call to [findOne] leaves the store as it is and logs its filter. *)
Lemma findOne_world (f : Filter.t) (w : World) :
  snd (findOne f w) = {| store := store w; queries := (queries w ++ [f])%list |}.
Proof.
  unfold findOne. destruct (outage (store w)); [reflexivity|].
  destruct (find _ _); reflexivity.
Qed.

(** The answer of [findOne] depends on the store only, not on the log. *)
Lemma findOne_answer (f : Filter.t) (w1 w2 : World) :
  store w1 = store w2 -> fst (findOne f w1) = fst (findOne f w2).
Proof.
  intros H. unfold findOne. rewrite H.
  destruct (outage (store w2)); [reflexivity|].
  destruct (find _ _); reflexivity.
Qed.

Lemma validateApiKey_world (apiKey : string) (user : option User) (w : World) :
  snd (validateApiKey apiKey user w) =
  match user with
  | Some u => {| store := store w;
                 queries := (queries w ++ [api_key_filter apiKey (_id u)])%list |}
  | None => w
  end.
Proof.
  destruct user as [u|]; [|reflexivity].
  rewrite validateApiKey_claimed.
  pose proof (findOne_world (api_key_filter apiKey (_id u)) w) as H.
  destruct (findOne _ w) as [[d|e] w']; exact H.
Qed.

Lemma validateApiKey_answer (apiKey : string) (u1 u2 : option User) (w1 w2 : World) :
  store w1 = store w2 ->
  option_map _id u1 = option_map _id u2 ->
  fst (validateApiKey apiKey u1 w1) = fst (validateApiKey apiKey u2 w2).
Proof.
  intros Hs Hid.
  destruct u1 as [u1|], u2 as [u2|]; try discriminate; [|reflexivity].
  injection Hid as Hid.
  rewrite !validateApiKey_claimed, Hid.
  pose proof (findOne_answer (api_key_filter apiKey (_id u2)) w1 w2 Hs) as H.
  destruct (findOne _ w1) as [[d1|e1] w1'], (findOne _ w2) as [[d2|e2] w2'];
    simpl in *; congruence.
Qed.

(** ** The gate, step by step *)

Lemma authenticate_absent (request : Request) (w : World) :
  extract (authorization request) = None ->
  authenticate request w = (denied missing_credential request, w).
Proof. intros H. unfold authenticate. now rewrite H. Qed.

Lemma authenticate_present (request : Request) (w : World) (apiKey : string) :
  extract (authorization request) = Some apiKey ->
  authenticate request w =
  match validateApiKey apiKey (user request) w with
  | (Fulfilled (Js.object u), w') => (allowed u request, w')
  | (Fulfilled _, w') => (denied credential_mismatch request, w')
  | (Rejected e, w') => (failed e request, w')
  end.
Proof.
  intros H. unfold authenticate, verify, on_validated. rewrite H.
  destruct (validateApiKey apiKey (user request) w) as [[[ | |u]|e] w']; reflexivity.
Qed.

(** The gate never writes to the store. *)
Lemma authenticate_store (request : Request) (w : World) :
  store (snd (authenticate request w)) = store w.
Proof.
  destruct (extract (authorization request)) as [k|] eqn:E.
  - rewrite (authenticate_present _ _ _ E).
    pose proof (validateApiKey_world k (user request) w) as H.
    destruct (validateApiKey k (user request) w) as [[[ | |u]|e] w'];
      simpl in *; subst w'; now destruct (user request).
  - now rewrite (authenticate_absent _ _ E).
Qed.

(** The result of the gate depends on the credential, the [_id] of the
    claimed identity, the request it hands back, and the store. *)
Lemma authenticate_result (r : Request) (w1 w2 : World) :
  store w1 = store w2 ->
  fst (authenticate r w1) = fst (authenticate r w2).
Proof.
  intros Hs. destruct (extract (authorization r)) as [k|] eqn:E.
  - rewrite !(authenticate_present _ _ _ E).
    pose proof (validateApiKey_answer k (user r) (user r) w1 w2 Hs eq_refl) as H.
    destruct (validateApiKey k (user r) w1) as [[[ | |u1]|e1] w1'],
             (validateApiKey k (user r) w2) as [[[ | |u2]|e2] w2'];
      simpl in H; try discriminate; try reflexivity; now injection H as ->.
  - now rewrite !(authenticate_absent _ _ E).
Qed.

(** ** The filter against single tags *)

(** A tag that carries both the name and the value satisfies both path
    conditions of the filter. *)
Lemma has_tag_paths (k v : string) (u : User) :
  has_tag k v u = true -> path_tags_key k u = true /\ path_tags_value v u = true.
Proof.
  unfold has_tag, path_tags_key, path_tags_value.
  induction (tags u) as [|t ts IH]; simpl; [discriminate|].
  unfold tag_is at 1. intros H.
  destruct (String.eqb (key t) k) eqn:Ek, (String.eqb (value t) v) eqn:Ev;
    simpl in *; try (now split); destruct (IH H) as [H1 H2]; rewrite ?H1, ?H2; now split.
Qed.

Lemma has_tag_matches (apiKey : string) (d : UserDocument) :
  has_tag "api-key" apiKey (toJSON d) = true ->
  matches (api_key_filter apiKey (_id (toJSON d))) d = true.
Proof.
  intros H. destruct (has_tag_paths _ _ _ H) as [H1 H2].
  unfold matches, api_key_filter. simpl. now rewrite String.eqb_refl, H1, H2.
Qed.

Lemma matches_id (f : Filter.t) (d : UserDocument) :
  matches f d = true -> _id (toJSON d) = Filter._id f.
Proof.
  unfold matches. intros H.
  apply andb_prop in H as [H _]. apply andb_prop in H as [H _].
  now apply String.eqb_eq.
Qed.

(** Whenever the collection holds a record of the claimed identity with a
    tag [(api-key, credential)] and the store answers, the gate allows, with
    a record of that identity, after exactly one lookup. *)
Lemma allowed_when_tag_held
  (request : Request) (w : World) (apiKey : string) (claimed : User) (d : UserDocument) :
  extract (authorization request) = Some apiKey ->
  user request = Some claimed ->
  outage (store w) = None ->
  In d (documents (store w)) ->
  _id (toJSON d) = _id claimed ->
  has_tag "api-key" apiKey (toJSON d) = true ->
  exists u,
    authenticate request w
    = (allowed u request,
       {| store := store w;
          queries := (queries w ++ [api_key_filter apiKey (_id claimed)])%list |})
    /\ _id u = _id claimed.
Proof.
  intros He Hu Ho Hin Hid Htag.
  rewrite (authenticate_present _ _ _ He), Hu, validateApiKey_claimed.
  unfold findOne. rewrite Ho.
  destruct (find (matches (api_key_filter apiKey (_id claimed))) (documents (store w)))
    as [d'|] eqn:Ef.
  - exists (toJSON d'). split; [reflexivity|].
    apply find_some in Ef as [_ Hm]. now apply matches_id in Hm.
  - apply (find_none _ _ Ef) in Hin.
    rewrite <- Hid, has_tag_matches in Hin; [discriminate | exact Htag].
Qed.

Lemma allowed_when_tag_held_witness :
  exists u,
    authenticate (Sample.request (Some "Bearer abc123") (Some Sample.U1_session))
                 (Sample.world Sample.users)
    = (allowed u (Sample.request (Some "Bearer abc123") (Some Sample.U1_session)),
       {| store := Sample.users; queries := [api_key_filter "abc123" "U1"] |})
    /\ _id u = "U1".
Proof.
  apply (allowed_when_tag_held
           (Sample.request (Some "Bearer abc123") (Some Sample.U1_session))
           (Sample.world Sample.users) "abc123" Sample.U1_session (Sample.doc Sample.U1));
    try reflexivity.
  simpl. left. reflexivity.
Defined.

(** C1 (evaluated where it fails). U2 has the tags (api-key, secret) and
    (label, abc123), so no single tag of U2 has the name api-key and the
    value abc123. The filter built for the credential abc123 matches U2 all
    the same, because its two tag conditions are met by two different tags:
    the gate issues its one lookup and allows. *)
Theorem C1_filter_joins_two_tags :
  let request := Sample.request (Some "Bearer abc123") (Some Sample.U2) in
  let run := authenticate request (Sample.world Sample.users) in
  has_tag "api-key" "abc123" Sample.U2 = false
  /\ matches (api_key_filter "abc123" "U2") (Sample.doc Sample.U2) = true
  /\ queries (snd run) = [api_key_filter "abc123" "U2"]
  /\ outcome (fst run) = Allowed Sample.U2.
Proof. repeat split. Qed.

(** ** The empty credential *)

(** The empty credential is sent to the store like any other: with U3, whose
    api-key tag has the empty value, the validator resolves to U3 after one
    query. *)
Lemma C2_empty_credential_is_queried :
  validateApiKey "" (Some Sample.U3) (Sample.world Sample.users)
  = (Fulfilled (Js.object Sample.U3),
     {| store := Sample.users; queries := [api_key_filter "" "U3"] |}).
Proof. reflexivity. Qed.

(** C2 (amended). For every claimed identity, [validateApiKey] with the
    empty credential issues exactly one store query, whose filter has
    ['tags.value'] equal to the empty string, and settles with what that
    query gives: a rejection when the store call fails, [undefined] when no
    record matches, the record's plain object otherwise. *)
Theorem C2_empty_credential_one_query (u : User) (w : World) :
  let run := validateApiKey "" (Some u) w in
  let f := {| Filter._id := _id u; Filter.tags_key := "api-key"; Filter.tags_value := "" |} in
  snd run = {| store := store w; queries := (queries w ++ [f])%list |}
  /\ fst run =
     match outage (store w) with
     | Some e => Rejected e
     | None =>
         match find (matches f) (documents (store w)) with
         | Some d => Fulfilled (Js.object (toJSON d))
         | None => Fulfilled Js.undefined
         end
     end.
Proof.
  cbv zeta. split.
  - apply (validateApiKey_world "" (Some u) w).
  - rewrite validateApiKey_claimed. unfold findOne, api_key_filter.
    destruct (outage (store w)); [reflexivity|].
    destruct (find _ _); reflexivity.
Qed.

(** ** A request without a claimed identity *)

(** With a well-formed header and no claimed identity the gate does not
    answer identity-not-found: the [TypeError] raised by [user._id] goes out
    through [done(error)]. *)
Lemma C3_no_identity_is_an_error :
  let run := authenticate (Sample.request (Some "Bearer abc123") None)
                          (Sample.world Sample.users) in
  outcome (fst run) = Denied upstream_error
  /\ reported (fst run)
     = Some (TypeError "Cannot read properties of undefined (reading '_id')").
Proof. split; reflexivity. Qed.

(** C3 (amended). For every request that carries a well-formed credential
    header but no claimed identity, the validator rejects with the
    [TypeError] of reading [_id] on [undefined], before any store lookup;
    the gate signals that error ([done(error)], the upstream-error path),
    never allows, and leaves the request and the query log as they were. *)
Theorem C3_no_identity_reports_type_error
  (request : Request) (w : World) (apiKey : string) :
  extract (authorization request) = Some apiKey ->
  user request = None ->
  authenticate request w
  = ({| outcome := Denied upstream_error;
        reported := Some (TypeError "Cannot read properties of undefined (reading '_id')");
        context := request |}, w).
Proof.
  intros He Hu. rewrite (authenticate_present _ _ _ He), Hu. reflexivity.
Qed.

Lemma C3_no_identity_reports_type_error_witness :
  authenticate (Sample.request (Some "Bearer abc123") None) (Sample.world Sample.users)
  = ({| outcome := Denied upstream_error;
        reported := Some (TypeError "Cannot read properties of undefined (reading '_id')");
        context := Sample.request (Some "Bearer abc123") None |},
     Sample.world Sample.users).
Proof.
  apply (C3_no_identity_reports_type_error
           (Sample.request (Some "Bearer abc123") None)
           (Sample.world Sample.users) "abc123"); reflexivity.
Defined.

(** ** Failures end in a denial *)

(** C4. When the validator resolves to absence the gate answers
    Denied(credential-mismatch); when the store call of the validator errors
    it answers Denied(upstream-error) and hands that error to the host;
    an Allowed outcome only comes from a validator that resolved to a user,
    and only an upstream error is reported. *)
Theorem C4_failures_deny (request : Request) (w : World) :
  let r := fst (authenticate request w) in
  (forall apiKey validated w',
      extract (authorization request) = Some apiKey ->
      validateApiKey apiKey (user request) w = (Fulfilled validated, w') ->
      Js.truthy validated = false ->
      outcome r = Denied credential_mismatch /\ reported r = None)
  /\ (forall apiKey claimed e,
      extract (authorization request) = Some apiKey ->
      user request = Some claimed ->
      outage (store w) = Some e ->
      outcome r = Denied upstream_error /\ reported r = Some e)
  /\ (forall apiKey e w',
      extract (authorization request) = Some apiKey ->
      validateApiKey apiKey (user request) w = (Rejected e, w') ->
      outcome r = Denied upstream_error /\ reported r = Some e)
  /\ (extract (authorization request) = None ->
      outcome r = Denied missing_credential /\ reported r = None)
  /\ (forall identity,
      outcome r = Allowed identity ->
      reported r = None
      /\ exists apiKey w',
          extract (authorization request) = Some apiKey
          /\ validateApiKey apiKey (user request) w = (Fulfilled (Js.object identity), w'))
  /\ (forall e, reported r = Some e -> outcome r = Denied upstream_error).
Proof.
  cbv zeta. repeat apply conj.
  - intros k v w' He Hv Hf. rewrite (authenticate_present _ _ _ He), Hv.
    destruct v; [split; reflexivity .. | discriminate].
  - intros k claimed e He Hu Ho.
    rewrite (authenticate_present _ _ _ He), Hu, validateApiKey_claimed.
    unfold findOne. rewrite Ho. split; reflexivity.
  - intros k e w' He Hv. rewrite (authenticate_present _ _ _ He), Hv.
    split; reflexivity.
  - intros He. rewrite (authenticate_absent _ _ He). split; reflexivity.
  - intros identity. destruct (extract (authorization request)) as [k|] eqn:He.
    + rewrite (authenticate_present _ _ _ He).
      destruct (validateApiKey k (user request) w) as [[[ | |u]|e] w'] eqn:Hv;
        simpl; try discriminate.
      intros [= ->]. split; [reflexivity|]. exists k, w'. now split.
    + rewrite (authenticate_absent _ _ He). discriminate.
  - intros e. destruct (extract (authorization request)) as [k|] eqn:He.
    + rewrite (authenticate_present _ _ _ He).
      destruct (validateApiKey k (user request) w) as [[[ | |u]|e'] w'];
        simpl; try discriminate. reflexivity.
    + rewrite (authenticate_absent _ _ He). discriminate.
Qed.

(** ** Extraction *)

(** C6. A missing header gives absence; a header value that does not start
    with the prefix "Bearer " gives absence; a value that starts with it
    gives exactly what follows the prefix; and absence makes the gate
    answer Denied(missing-credential), whatever the store holds. *)
Theorem C6_extract_exact_prefix :
  extract None = None
  /\ (forall v, (forall r, v <> "Bearer " ++ r) -> extract (Some v) = None)
  /\ (forall r, extract (Some ("Bearer " ++ r)) = Some r)
  /\ (forall v k, extract (Some v) = Some k <-> v = "Bearer " ++ k)
  /\ (forall request w,
      extract (authorization request) = None ->
      authenticate request w = (denied missing_credential request, w)).
Proof.
  repeat apply conj.
  - reflexivity.
  - exact extract_unprefixed.
  - exact extract_prefixed.
  - intros v k. split.
    + apply extract_some_inv.
    + intros ->. apply extract_prefixed.
  - exact authenticate_absent.
Qed.

(** ** Running the gate twice *)

(** C7. The gate leaves the store unchanged, and a second run on the same
    request state gives the same outcome (the same Allowed identity or the
    same Denied reason), the same report and the same context. *)
Theorem C7_authenticate_twice (request : Request) (w : World) :
  let first := authenticate request w in
  let second := authenticate request (snd first) in
  store (snd first) = store w
  /\ store (snd second) = store w
  /\ outcome (fst second) = outcome (fst first)
  /\ fst second = fst first.
Proof.
  cbv zeta.
  pose proof (authenticate_store request w) as H1.
  pose proof (authenticate_store request (snd (authenticate request w))) as H2.
  pose proof (authenticate_result request _ _ H1) as H3.
  repeat split; congruence.
Qed.

(** ** No matching record *)

(** C9. When the lookup finds no record ([findOne] returns [null]) the
    validator resolves, to [undefined]; and the callback answers every
    falsy value of the validator with [done(null, false)]. *)
Theorem C9_no_match_resolves_undefined :
  (forall apiKey claimed w w',
      findOne (api_key_filter apiKey (_id claimed)) w = (Fulfilled Js.null, w') ->
      validateApiKey apiKey (Some claimed) w = (Fulfilled Js.undefined, w'))
  /\ (forall apiKey claimed w,
      outage (store w) = None ->
      (forall d, In d (documents (store w)) ->
                 matches (api_key_filter apiKey (_id claimed)) d = false) ->
      validateApiKey apiKey (Some claimed) w
      = (Fulfilled Js.undefined,
         {| store := store w;
            queries := (queries w ++ [api_key_filter apiKey (_id claimed)])%list |}))
  /\ (forall validated, Js.truthy validated = false -> on_validated validated = done_false)
  /\ (forall apiKey request w validated w',
      validateApiKey apiKey (user request) w = (Fulfilled validated, w') ->
      Js.truthy validated = false ->
      verify apiKey request w = (done_false, w')).
Proof.
  repeat apply conj.
  - intros k claimed w w' H. now rewrite validateApiKey_claimed, H.
  - intros k claimed w Ho Hnone. rewrite validateApiKey_claimed.
    unfold findOne. rewrite Ho.
    destruct (find _ _) as [d|] eqn:Ef; [|reflexivity].
    apply find_some in Ef as [Hin Hm]. rewrite (Hnone d Hin) in Hm. discriminate.
  - intros v H. unfold on_validated. now rewrite H.
  - intros k request w v w' Hv Hf. unfold verify, on_validated. now rewrite Hv, Hf.
Qed.

(** ** Only the [_id] of the claimed identity is read *)

(** C10. Two requests that present the same extracted credential against the
    same store and whose claimed identities agree on [_id] get the same
    outcome (and the same report, and send the same query), whatever the
    other fields of the claimed identities are. *)
Theorem C10_only_id_matters (r1 r2 : Request) (u1 u2 : User) (w : World) :
  extract (authorization r1) = extract (authorization r2) ->
  user r1 = Some u1 ->
  user r2 = Some u2 ->
  _id u1 = _id u2 ->
  outcome (fst (authenticate r1 w)) = outcome (fst (authenticate r2 w))
  /\ reported (fst (authenticate r1 w)) = reported (fst (authenticate r2 w))
  /\ snd (authenticate r1 w) = snd (authenticate r2 w).
Proof.
  intros He H1 H2 Hid.
  destruct (extract (authorization r2)) as [k|] eqn:E2.
  - rewrite (authenticate_present _ _ _ He), (authenticate_present _ _ _ E2), H1, H2.
    rewrite !validateApiKey_claimed, Hid.
    destruct (findOne _ w) as [[[ | |d]|e] w']; repeat split.
  - rewrite (authenticate_absent _ _ He), (authenticate_absent _ _ E2). repeat split.
Qed.

Lemma C10_only_id_matters_witness :
  let r1 := Sample.request (Some "Bearer abc123") (Some Sample.U1) in
  let r2 := Sample.request (Some "Bearer abc123") (Some Sample.U1_session) in
  let w := Sample.world Sample.users in
  outcome (fst (authenticate r1 w)) = outcome (fst (authenticate r2 w))
  /\ reported (fst (authenticate r1 w)) = reported (fst (authenticate r2 w))
  /\ snd (authenticate r1 w) = snd (authenticate r2 w).
Proof.
  apply (C10_only_id_matters
           (Sample.request (Some "Bearer abc123") (Some Sample.U1))
           (Sample.request (Some "Bearer abc123") (Some Sample.U1_session))
           Sample.U1 Sample.U1_session (Sample.world Sample.users)); reflexivity.
Defined.

(** ** Wrong key against unknown identity *)

(** When no record of the collection satisfies the filter, the gate answers
    Denied(credential-mismatch) after one lookup, and nothing in the result
    tells whether the claimed identity exists in the collection. *)
Lemma mismatch_hides_existence
  (request : Request) (w : World) (apiKey : string) (claimed : User) :
  extract (authorization request) = Some apiKey ->
  user request = Some claimed ->
  outage (store w) = None ->
  (forall d, In d (documents (store w)) ->
             matches (api_key_filter apiKey (_id claimed)) d = false) ->
  authenticate request w
  = (denied credential_mismatch request,
     {| store := store w;
        queries := (queries w ++ [api_key_filter apiKey (_id claimed)])%list |}).
Proof.
  intros He Hu Ho Hnone.
  rewrite (authenticate_present _ _ _ He), Hu, validateApiKey_claimed.
  unfold findOne. rewrite Ho.
  destruct (find _ _) as [d|] eqn:Ef; [|reflexivity].
  apply find_some in Ef as [Hin Hm]. rewrite (Hnone d Hin) in Hm. discriminate.
Qed.

Lemma mismatch_hides_existence_witness :
  let request := Sample.request (Some "Bearer wrong") (Some Sample.U1) in
  known "U1" Sample.users = true
  /\ known "U1" Sample.empty = false
  /\ fst (authenticate request (Sample.world Sample.users))
     = denied credential_mismatch request
  /\ fst (authenticate request (Sample.world Sample.empty))
     = denied credential_mismatch request.
Proof.
  cbv zeta. split; [reflexivity|]. split; [reflexivity|]. split.
  - rewrite (mismatch_hides_existence
               (Sample.request (Some "Bearer wrong") (Some Sample.U1))
               (Sample.world Sample.users) "wrong" Sample.U1); try reflexivity.
    intros d [<-|[<-|[<-|[]]]]; reflexivity.
  - rewrite (mismatch_hides_existence
               (Sample.request (Some "Bearer wrong") (Some Sample.U1))
               (Sample.world Sample.empty) "wrong" Sample.U1); try reflexivity.
    intros d [].
Defined.

(** C8 (evaluated where it fails). The credential abc123 has no matching
    tag on U2: the api-key tag of U2 holds secret. With U2 in the collection
    the gate allows, because another tag of U2 has the value abc123; with U2
    absent from the collection it answers Denied(credential-mismatch). The
    two runs differ. *)
Theorem C8_wrong_key_told_apart :
  let request := Sample.request (Some "Bearer abc123") (Some Sample.U2) in
  has_tag "api-key" "abc123" Sample.U2 = false
  /\ has_tag "api-key" "secret" Sample.U2 = true
  /\ known "U2" Sample.users = true
  /\ outcome (fst (authenticate request (Sample.world Sample.users)))
     = Allowed Sample.U2
  /\ known "U2" Sample.empty = false
  /\ outcome (fst (authenticate request (Sample.world Sample.empty)))
     = Denied credential_mismatch.
Proof. repeat split. Qed.

(** ** Running the gate again on the enriched request *)

(** After a run, a second run on the request context that the first run
    handed back gives the same outcome: an attached identity has the [_id]
    of the claimed one, so the second lookup is the first one again. *)
Lemma authenticate_again_on_context (request : Request) (w : World) :
  let first := authenticate request w in
  let second := authenticate (context (fst first)) (snd first) in
  outcome (fst second) = outcome (fst first).
Proof.
  cbv zeta.
  destruct (extract (authorization request)) as [k|] eqn:He.
  - rewrite (authenticate_present _ _ _ He).
    destruct (user request) as [claimed|] eqn:Hu.
    + rewrite validateApiKey_claimed. unfold findOne.
      destruct (outage (store w)) as [e|] eqn:Ho; simpl.
      * rewrite (authenticate_present _ _ _ He), Hu, validateApiKey_claimed.
        unfold findOne. simpl. rewrite Ho. reflexivity.
      * destruct (find _ _) as [d|] eqn:Ef; simpl.
        -- assert (Hk : extract (authorization (attach (toJSON d) request)) = Some k)
             by exact He.
           rewrite (authenticate_present _ _ _ Hk). simpl.
           rewrite validateApiKey_claimed. unfold findOne. simpl. rewrite Ho.
           pose proof Ef as Hid. apply find_some in Hid as [_ Hid].
           apply matches_id in Hid. simpl in Hid. rewrite Hid, Ef. reflexivity.
        -- rewrite (authenticate_present _ _ _ He), Hu, validateApiKey_claimed.
           unfold findOne. simpl. rewrite Ho, Ef. reflexivity.
    + simpl. rewrite (authenticate_present _ _ _ He), Hu. reflexivity.
  - rewrite (authenticate_absent _ _ He). simpl.
    rewrite (authenticate_absent _ _ He). reflexivity.
Qed.

(** * Further properties of the validator and of the callback *)

(** ** Lists of records *)

Section Records.

Variable A : Type.

(** Searching a list and searching its sub-list of candidates agree when
    every hit is a candidate. *)
Lemma find_among (f g : A -> bool) (l : list A) :
  (forall x, f x = true -> g x = true) ->
  find f (filter g l) = find f l.
Proof.
  intros Hfg. induction l as [|x l IH]; simpl; [reflexivity|].
  destruct (g x) eqn:Eg; simpl.
  - now rewrite IH.
  - destruct (f x) eqn:Ef; [|exact IH].
    rewrite (Hfg x Ef) in Eg. discriminate.
Qed.

(** A search finds nothing exactly when no element passes the test. *)
Lemma find_nothing (f : A -> bool) (l : list A) :
  find f l = None <-> (forall x, In x l -> f x = false).
Proof.
  split.
  - intros H x Hin. exact (find_none f l H x Hin).
  - intros H. destruct (find f l) as [x|] eqn:E; [|reflexivity].
    apply find_some in E as [Hin Hx]. rewrite (H x Hin) in Hx. discriminate.
Qed.

(** Two elements with the same image, in a list whose images are pairwise
    distinct, are the same element. *)
Lemma same_image_same_element (B : Type) (g : A -> B) (l : list A) (a b : A) :
  NoDup (map g l) -> In a l -> In b l -> g a = g b -> a = b.
Proof.
  induction l as [|x l IH]; simpl; intros Hnd Ha Hb Hg; [contradiction|].
  inversion Hnd as [|y ys Hnotin Hnd']; subst.
  destruct Ha as [->|Ha], Hb as [->|Hb].
  - reflexivity.
  - elim Hnotin. rewrite Hg. now apply in_map.
  - elim Hnotin. rewrite <- Hg. now apply in_map.
  - now apply IH.
Qed.

End Records.

(** The callback is the validator followed by the branch on its value. *)
Lemma verify_claimed (apiKey : string) (request : Request) (claimed : User) (w : World) :
  user request = Some claimed ->
  fst (verify apiKey request w) =
  match outage (store w) with
  | Some e => done_error e
  | None =>
      match find (matches (api_key_filter apiKey (_id claimed))) (documents (store w)) with
      | Some d => done_user (Js.object (toJSON d))
      | None => done_false
      end
  end.
Proof.
  intros Hu. unfold verify. rewrite Hu, validateApiKey_claimed. unfold findOne.
  destruct (outage (store w)); [reflexivity|].
  destruct (find _ _); reflexivity.
Qed.

(** ** Soundness of an allowance *)

(** An Allowed outcome is always backed by the store: the request carried a
    credential and a claimed identity, the store answered, and the allowed
    identity is the plain object of a stored record that has the [_id] of
    the claimed identity, a tag keyed api-key and a tag whose value is the
    credential. In particular the gate never allows an identity other than
    the claimed one. *)
Lemma allowed_sound (request : Request) (w : World) (identity : User) :
  outcome (fst (authenticate request w)) = Allowed identity ->
  exists apiKey claimed d,
    extract (authorization request) = Some apiKey
    /\ user request = Some claimed
    /\ outage (store w) = None
    /\ In d (documents (store w))
    /\ toJSON d = identity
    /\ _id identity = _id claimed
    /\ path_tags_key "api-key" identity = true
    /\ path_tags_value apiKey identity = true.
Proof.
  destruct (extract (authorization request)) as [k|] eqn:He.
  2: { rewrite (authenticate_absent _ _ He). discriminate. }
  rewrite (authenticate_present _ _ _ He).
  destruct (user request) as [claimed|] eqn:Hu; [|discriminate].
  rewrite validateApiKey_claimed. unfold findOne.
  destruct (outage (store w)) as [e|] eqn:Ho; [discriminate|].
  destruct (find _ _) as [d|] eqn:Ef; [|discriminate].
  simpl. intros [= <-].
  apply find_some in Ef as [Hin Hm].
  pose proof (matches_id _ _ Hm) as Hid.
  unfold matches in Hm. apply andb_prop in Hm as [Hm Hv]. apply andb_prop in Hm as [_ Hk].
  exists k, claimed, d. repeat split; assumption.
Qed.

Lemma allowed_sound_witness :
  exists apiKey claimed d,
    extract (authorization (Sample.request (Some "Bearer abc123") (Some Sample.U1_session)))
    = Some apiKey
    /\ user (Sample.request (Some "Bearer abc123") (Some Sample.U1_session)) = Some claimed
    /\ outage (store (Sample.world Sample.users)) = None
    /\ In d (documents (store (Sample.world Sample.users)))
    /\ toJSON d = Sample.U1
    /\ _id Sample.U1 = _id claimed
    /\ path_tags_key "api-key" Sample.U1 = true
    /\ path_tags_value apiKey Sample.U1 = true.
Proof.
  apply (allowed_sound (Sample.request (Some "Bearer abc123") (Some Sample.U1_session))
                       (Sample.world Sample.users) Sample.U1).
  reflexivity.
Defined.

(** ** The value the validator resolves to *)

(** When [validateApiKey] resolves, its value is [undefined] or a user
    object, never [null]: a [null] of the store is turned into [undefined]
    by the optional chaining. *)
Lemma validateApiKey_never_null
  (apiKey : string) (claimed : option User) (w w' : World) (validated : Js.value User) :
  validateApiKey apiKey claimed w = (Fulfilled validated, w') ->
  validated = Js.undefined \/ exists u, validated = Js.object u.
Proof.
  destruct claimed as [u|]; [|discriminate].
  rewrite validateApiKey_claimed.
  destruct (findOne _ w) as [[[ | |d]|e] w1]; simpl; intros [= <- _];
    [left; reflexivity .. | right; now exists (toJSON d)].
Qed.

Lemma validateApiKey_never_null_witness :
  (@Js.undefined User) = Js.undefined \/ exists u, (@Js.undefined User) = Js.object u.
Proof.
  apply (validateApiKey_never_null "wrong" (Some Sample.U1)
           (Sample.world Sample.users)
           {| store := Sample.users; queries := [api_key_filter "wrong" "U1"] |}
           Js.undefined).
  reflexivity.
Defined.

(** ** The signals of the callback, in terms of its inputs *)

(** The callback calls [done(error)] in exactly two situations: the request
    has no claimed identity (the error is the [TypeError] of reading [_id]),
    or it has one and the store call fails (the error is the store's own,
    passed on unchanged). *)
Lemma verify_error_iff (apiKey : string) (request : Request) (w : World) (e : Error) :
  fst (verify apiKey request w) = done_error e
  <-> (user request = None
       /\ e = TypeError "Cannot read properties of undefined (reading '_id')")
      \/ (exists claimed, user request = Some claimed /\ outage (store w) = Some e).
Proof.
  destruct (user request) as [claimed|] eqn:Hu.
  - rewrite (verify_claimed _ _ _ _ Hu). split.
    + intros H. right. exists claimed. split; [reflexivity|].
      destruct (outage (store w)) as [e'|].
      * now injection H as ->.
      * destruct (find _ _); discriminate.
    + intros [[H _]|[c [_ Ho]]]; [discriminate|]. now rewrite Ho.
  - unfold verify. rewrite Hu. simpl. split.
    + intros [= <-]. left. now split.
    + intros [[_ ->]|[c [H _]]]; [reflexivity | discriminate].
Qed.

(** The callback calls [done(null, false)] exactly when the request has a
    claimed identity, the store answers, and no record of the collection
    satisfies the filter built from the credential and the identity's
    [_id]. *)
Lemma verify_false_iff (apiKey : string) (request : Request) (w : World) :
  fst (verify apiKey request w) = done_false
  <-> exists claimed,
        user request = Some claimed
        /\ outage (store w) = None
        /\ (forall d, In d (documents (store w)) ->
                      matches (api_key_filter apiKey (_id claimed)) d = false).
Proof.
  destruct (user request) as [claimed|] eqn:Hu.
  - rewrite (verify_claimed _ _ _ _ Hu). split.
    + intros H. exists claimed. destruct (outage (store w)); [discriminate|].
      destruct (find _ _) eqn:Ef; [discriminate|].
      repeat split. now apply find_nothing.
    + intros [c [[= <-] [Ho Hnone]]]. rewrite Ho.
      apply find_nothing in Hnone. now rewrite Hnone.
  - unfold verify. rewrite Hu. simpl. split; [discriminate|].
    intros [c [H _]]. discriminate.
Qed.

(** ** What the callback does to the store *)

(** One run of the callback never changes the store, keeps every earlier
    entry of the query log, and adds at most one entry to it: the filter for
    the credential and the claimed [_id] when the request has a claimed
    identity, nothing otherwise. *)
Lemma verify_lookup (apiKey : string) (request : Request) (w : World) :
  store (snd (verify apiKey request w)) = store w
  /\ queries (snd (verify apiKey request w))
     = (queries w ++ match user request with
                     | Some claimed => [api_key_filter apiKey (_id claimed)]
                     | None => []
                     end)%list.
Proof.
  pose proof (validateApiKey_world apiKey (user request) w) as H.
  unfold verify.
  destruct (validateApiKey apiKey (user request) w) as [[v|e] w']; simpl in *; subst w';
    destruct (user request); simpl; rewrite ?app_nil_r; now split.
Qed.

(** ** Records of other identities *)

(** The decision for a claimed identity depends on the records that carry
    its [_id] only: two stores that fail alike and hold the same records of
    that identity give the same signal of the callback and the same result
    of the gate, whatever records of other identities they hold. *)
Lemma other_identities_do_not_matter
  (request : Request) (claimed : User) (w1 w2 : World) :
  user request = Some claimed ->
  outage (store w1) = outage (store w2) ->
  records_of (_id claimed) (store w1) = records_of (_id claimed) (store w2) ->
  (forall apiKey, fst (verify apiKey request w1) = fst (verify apiKey request w2))
  /\ fst (authenticate request w1) = fst (authenticate request w2).
Proof.
  intros Hu Ho Hrec.
  assert (Hv : forall k, fst (verify k request w1) = fst (verify k request w2)).
  { intros k. rewrite !(verify_claimed _ _ _ _ Hu), Ho.
    destruct (outage (store w2)); [reflexivity|].
    assert (Hfind : forall s,
               find (matches (api_key_filter k (_id claimed))) (documents s)
               = find (matches (api_key_filter k (_id claimed)))
                      (records_of (_id claimed) s)).
    { intros s. symmetry. apply find_among.
      intros d Hm. apply matches_id in Hm. simpl in Hm. now apply String.eqb_eq. }
    now rewrite (Hfind (store w1)), (Hfind (store w2)), Hrec. }
  split; [exact Hv|].
  unfold authenticate. destruct (extract (authorization request)) as [k|]; [|reflexivity].
  specialize (Hv k).
  destruct (verify k request w1) as [s1 w1'], (verify k request w2) as [s2 w2'].
  simpl in Hv. subst s2. destruct s1 as [e| |[ | |u]]; reflexivity.
Qed.

Lemma other_identities_do_not_matter_witness :
  let request := Sample.request (Some "Bearer abc123") (Some Sample.U1) in
  let alone := {| documents := [Sample.doc Sample.U1]; outage := None |} in
  (forall apiKey,
      fst (verify apiKey request (Sample.world Sample.users))
      = fst (verify apiKey request (Sample.world alone)))
  /\ fst (authenticate request (Sample.world Sample.users))
     = fst (authenticate request (Sample.world alone)).
Proof.
  apply (other_identities_do_not_matter
           (Sample.request (Some "Bearer abc123") (Some Sample.U1)) Sample.U1
           (Sample.world Sample.users)
           (Sample.world {| documents := [Sample.doc Sample.U1]; outage := None |}));
    reflexivity.
Defined.

(** ** Collections with unique identifiers *)

(** When no two records share an [_id], the signal of the callback for a
    claimed identity that has a record is decided by that record alone:
    [done(null, user)] with the record's plain object when the record
    satisfies the filter, [done(null, false)] when it does not. *)
Lemma own_record_decides
  (apiKey : string) (request : Request) (claimed : User) (d : UserDocument) (w : World) :
  unique_ids (store w) ->
  In d (documents (store w)) ->
  _id (toJSON d) = _id claimed ->
  user request = Some claimed ->
  outage (store w) = None ->
  fst (verify apiKey request w)
  = if matches (api_key_filter apiKey (_id claimed)) d
    then done_user (Js.object (toJSON d))
    else done_false.
Proof.
  intros Huniq Hin Hid Hu Ho.
  rewrite (verify_claimed _ _ _ _ Hu), Ho.
  assert (Hsame : forall d', In d' (documents (store w)) ->
                             matches (api_key_filter apiKey (_id claimed)) d' = true ->
                             d' = d).
  { intros d' Hin' Hm. apply matches_id in Hm. simpl in Hm.
    apply (same_image_same_element _ _ (fun x => _id (toJSON x)) _ _ _ Huniq Hin' Hin).
    congruence. }
  destruct (find _ _) as [d'|] eqn:Ef.
  - apply find_some in Ef as [Hin' Hm].
    pose proof (Hsame d' Hin' Hm) as Heq. subst d'. now rewrite Hm.
  - now rewrite (find_none _ _ Ef d Hin).
Qed.

Lemma own_record_decides_witness :
  fst (verify "secret" (Sample.request (Some "Bearer secret") (Some Sample.U2))
              (Sample.world Sample.users))
  = if matches (api_key_filter "secret" (_id Sample.U2)) (Sample.doc Sample.U2)
    then done_user (Js.object (toJSON (Sample.doc Sample.U2)))
    else done_false.
Proof.
  apply (own_record_decides "secret"
           (Sample.request (Some "Bearer secret") (Some Sample.U2))
           Sample.U2 (Sample.doc Sample.U2) (Sample.world Sample.users));
    try reflexivity.
  - unfold unique_ids. simpl.
    repeat (constructor; [simpl; intuition discriminate|]). constructor.
  - simpl. right. left. reflexivity.
Defined.
